(** * The verifier service of vcxagent-core

    A shallow embedding of
    [agents/node/vcxagent-core/src/services/service-verifier.js]: the
    function [createServiceVerifier] and the seven operations it returns.

    The service is glue: every operation sequences calls to collaborators
    that are injected into [createServiceVerifier] (a logger, the connection
    resolver, the proof store) or imported ([Proof] of the vcx wrapper, the
    [sleep] of sleep-promise).  The embedding keeps that shape: the service is
    written once, over an arbitrary world and arbitrary collaborators, and is
    then run against a model of the collaborators that follows the
    specification of the proof-exchange core.

    The body of the command loop of the interactive client
    ([createInteractiveClient]) is embedded the same way, in [Client]. *)

From stdpp Require Import base option list gmap strings.
From Stdlib Require Import NArith Ascii String.

Local Open Scope string_scope.
Local Open Scope list_scope.

(** ** Failures and asynchronous computations *)

(** Modelled from the spec: the two kinds of id that a lookup can fail on,
    a connection id or a proof id. *)
Inductive Resource := ConnectionKey | ProofKey.

(** Modelled from the spec: the error kinds of the error handling design;
    the service itself raises none and passes on what its collaborators
    raise.  [NotFound] records which lookup failed and for which id. *)
Inductive Error :=
  | NotFound (what : Resource) (id : string)
  | DuplicateId
  | TransportError
  | ValidationError.

(** An awaited promise either resolves with a value or rejects; a rejection
    awaited inside an [async] function without a [try] leaves the function at
    once and rejects its own promise. *)
Inductive Outcome (A : Type) :=
  | Return (a : A)
  | Throw (e : Error).
Arguments Return {A} a.
Arguments Throw {A} e.

(** An [async] function over a world [W]: it runs from a world and leaves an
    outcome and the world as it is when the function is left.  Effects made
    before a rejection stay. *)
Definition Async (W A : Type) : Type := W → Outcome A * W.

#[export] Instance Async_ret {W} : MRet (Async W) :=
  λ A a w, (Return a, w).

#[export] Instance Async_bind {W} : MBind (Async W) :=
  λ A B k m w,
    match m w with
    | (Return a, w') => k a w'
    | (Throw e, w') => (Throw e, w')
    end.

(** What a run gave, and the world after it. *)
Definition outcome {W A} (run : Outcome A * W) : Outcome A := fst run.
Definition after {W A} (run : Outcome A * W) : W := snd run.

(** [for (const x of xs) { await body(x) }] *)
Fixpoint for_of {W A} (xs : list A) (body : A → Async W unit) : Async W unit :=
  match xs with
  | [] => mret ()
  | x :: rest => body x ;; for_of rest body
  end.

(** ** The collaborators *)

(** What the service imports: [Proof] of @hyperledger/node-vcx-wrapper,
    [sleep] of sleep-promise, and the two conversions to text that its
    template literals make.  A proof object is mutable: a method takes the
    receiver and gives back, next to its result, the receiver as the call
    left it. *)
Class Vcx (W : Type) := {
  VcxProof : Type;
  Connection : Type;
  ProofData : Type;
  StateType : Type;
  sleep : N → Async W unit;
  JSON_stringify : ProofData → string;
  String_of_state : StateType → string;
  Proof_create : ProofData → Async W VcxProof;
  proof_requestProof : VcxProof → Connection → Async W (unit * VcxProof);
  proof_getState : VcxProof → Async W (StateType * VcxProof);
  proof_getProofRequestMessage : VcxProof → Async W (string * VcxProof);
  proof_updateStateV2 : VcxProof → Connection → Async W (StateType * VcxProof);
}.

Record Logger (W : Type) := {
  info : string → Async W unit;
  warn : string → Async W unit;
}.
Arguments info {W} _ _.
Arguments warn {W} _ _.

(** The argument of [createServiceVerifier]:
    [{ logger, loadConnection, saveProof, loadProof, listProofIds }]. *)
Record Deps (W : Type) `{Vcx W} := {
  logger : Logger W;
  loadConnection : string → Async W Connection;
  saveProof : string → VcxProof → Async W unit;
  loadProof : string → Async W VcxProof;
  listProofIds : Async W (list string);
}.
Arguments logger {W _} _.
Arguments loadConnection {W _} _ _.
Arguments saveProof {W _} _ _ _.
Arguments loadProof {W _} _ _.
Arguments listProofIds {W _} _.

(** The object [{ state, proofRequestMessage }] that [sendProofRequest]
    returns. *)
Module ProofRequestSent.
Record t (S : Type) := {
  state : S;
  proofRequestMessage : string;
}.
Arguments state {S} _.
Arguments proofRequestMessage {S} _.
End ProofRequestSent.

(** ** The service *)

Section Service.
Context {W : Type} `{Vcx W} (deps : Deps W).

Definition createProof (proofId : string) (proofData : ProofData)
  : Async W VcxProof :=
  info (logger deps)
    ("Verifier creating proof " +:+ proofId +:+ ", proofData="
       +:+ JSON_stringify proofData) ;;
  sleep 1000 ;;
  proof ← Proof_create proofData;
  saveProof deps proofId proof ;;
  mret proof.

Definition sendProofRequest (connectionId proofId : string)
  : Async W (ProofRequestSent.t StateType) :=
  connection ← loadConnection deps connectionId;
  proof ← loadProof deps proofId;
  '(_, proof) ← proof_requestProof proof connection;
  '(state, proof) ← proof_getState proof;
  '(proofRequestMessage, proof) ← proof_getProofRequestMessage proof;
  saveProof deps proofId proof ;;
  mret {| ProofRequestSent.state := state;
          ProofRequestSent.proofRequestMessage := proofRequestMessage |}.

Definition proofUpdate (proofId connectionId : string) : Async W StateType :=
  proof ← loadProof deps proofId;
  connection ← loadConnection deps connectionId;
  '(state, proof) ← proof_updateStateV2 proof connection;
  saveProof deps proofId proof ;;
  mret state.

Definition getState (proofId : string) : Async W StateType :=
  proof ← loadProof deps proofId;
  '(state, _) ← proof_getState proof;
  mret state.

Definition listIds : Async W (list string) :=
  listProofIds deps.

Definition printInfo (connectionIds : list string) : Async W unit :=
  for_of connectionIds (λ id,
    state ← getState id;
    info (logger deps) ("Proof " +:+ id +:+ " state=" +:+ String_of_state state)).

Definition getVcxProof (proofId : string) : Async W VcxProof :=
  warn (logger deps)
    "Usage of getVcxProof is not recommended. You should use vcxagent-core API rather than work with vcx object directly." ;;
  loadProof deps proofId.

End Service.

(** The object that [createServiceVerifier] returns. *)
Module ServiceVerifier.
Record t (W : Type) `{Vcx W} := {
  createProof : string → ProofData → Async W VcxProof;
  sendProofRequest : string → string → Async W (ProofRequestSent.t StateType);
  proofUpdate : string → string → Async W StateType;
  getVcxProof : string → Async W VcxProof;
  listIds : Async W (list string);
  printInfo : list string → Async W unit;
  getState : string → Async W StateType;
}.
End ServiceVerifier.

Definition createServiceVerifier {W : Type} `{Vcx W} (deps : Deps W)
  : ServiceVerifier.t W :=
  {| ServiceVerifier.createProof := createProof deps;
     ServiceVerifier.sendProofRequest := sendProofRequest deps;
     ServiceVerifier.proofUpdate := proofUpdate deps;
     ServiceVerifier.getVcxProof := getVcxProof deps;
     ServiceVerifier.listIds := listIds deps;
     ServiceVerifier.printInfo := printInfo deps;
     ServiceVerifier.getState := getState deps |}.

(** ** The proof-exchange core, from its specification

    The collaborators live outside [service-verifier.js].  What follows is
    their model, written from the specification of the proof-exchange core:
    the record and its state machine, the proof store, the connection
    resolver and the logging sink. *)

(** Modelled from the spec: the lifecycle stages of a proof exchange; the
    vcx wrapper that defines them is not part of the sources. *)
Inductive State :=
  | INITIAL
  | REQUEST_SENT
  | PRESENTATION_RECEIVED
  | VERIFIED
  | REJECTED
  | FAILED.

#[export] Instance State_eq_dec : EqDecision State.
Proof. solve_decision. Defined.

(** Modelled from the spec: the text a state takes in a log line, which is
    its name. *)
Definition State_name (s : State) : string :=
  match s with
  | INITIAL => "INITIAL"
  | REQUEST_SENT => "REQUEST_SENT"
  | PRESENTATION_RECEIVED => "PRESENTATION_RECEIVED"
  | VERIFIED => "VERIFIED"
  | REJECTED => "REJECTED"
  | FAILED => "FAILED"
  end.

(** Modelled from the spec: the proof criteria a caller supplies are opaque
    structured data.  The core only needs to tell malformed criteria apart
    ([ValidationError]), to print them ([JSON.stringify] in the log line) and
    to serialize the request built from them. *)
Class Criteria := {
  Payload : Type;
  well_formed : Payload → bool;
  Payload_json : Payload → string;
  request_message : Payload → string;
}.

(** Modelled from the spec: what a counterparty may have queued on a
    connection: a presentation (valid or not), a decline, or a message that
    cannot be read. *)
Inductive Incoming :=
  | Presentation (valid : bool)
  | Declined
  | Malformed.

(** Modelled from the spec: the levels of the logging sink that the service
    uses. *)
Inductive Level := Info | Warn.

Section Core.
Context {criteria : Criteria}.

(** Modelled from the spec: the ProofExchangeRecord of the data model.  The
    [proofId] is the key the record is stored under: [Proof.create] is not
    given it. *)
Record ProofExchangeRecord := {
  state : State;
  proofRequestPayload : Payload;
  proofRequestMessage : string;
  connectionId : option string;
  lastError : option string;
}.

(** Modelled from the spec: a connection handle, as the ConnectionResolver
    gives it out; it names the channel that messages travel on. *)
Record ConnectionHandle := {
  channel : string;
}.

(** Modelled from the spec: what the collaborators do to the outside, in the
    order it happens: lines handed to the logging sink, pauses, records built
    by the wrapper, and messages dispatched on a connection. *)
Inductive Event :=
  | Logged (level : Level) (line : string)
  | Slept (ms : N)
  | Created (data : Payload)
  | Dispatched (on : string) (message : string).

(** Modelled from the spec: the state that the collaborators share: the
    ProofStore, the connections known to the ConnectionResolver, the
    messages queued by counterparties and not yet polled, the channels whose
    transport is failing, and the journal of events. *)
Record World := {
  proofs : gmap string ProofExchangeRecord;
  connections : gmap string ConnectionHandle;
  inbox : gmap string (list Incoming);
  down : gset string;
  events : list Event;
}.

(** The world with more events in its journal. *)
Definition journal (evs : list Event) (w : World) : World :=
  {| proofs := proofs w; connections := connections w; inbox := inbox w;
     down := down w; events := events w ++ evs |}.

Definition emit (e : Event) (w : World) : World := journal [e] w.

(** The world with [r] stored under [proofId], in place of what was there. *)
Definition store (proofId : string) (r : ProofExchangeRecord) (w : World) : World :=
  {| proofs := <[proofId := r]> (proofs w); connections := connections w;
     inbox := inbox w; down := down w; events := events w |}.

(** The world with [rest] as the messages waiting on a channel. *)
Definition requeue (on : string) (rest : list Incoming) (w : World) : World :=
  {| proofs := proofs w; connections := connections w;
     inbox := <[on := rest]> (inbox w); down := down w; events := events w |}.

(** Modelled from the spec: the messages waiting on a connection, oldest
    first. *)
Definition pending (c : ConnectionHandle) (w : World) : list Incoming :=
  default [] (inbox w !! channel c).

(** Modelled from the spec: a counterparty queues a message on a connection
    (the simulated presentation or decline of the test scenarios). *)
Definition deliver (c : ConnectionHandle) (m : Incoming) (w : World) : World :=
  requeue (channel c) (pending c w ++ [m]) w.

(** *** ProofStore *)

(** Modelled from the spec: [save(proofId, record)] persists or overwrites.
    The store keeps the record as a value: what is done to a loaded record
    reaches the store at the next [save] only. *)
Definition ProofStore_save (proofId : string) (r : ProofExchangeRecord)
  : Async World unit :=
  λ w, (Return (), store proofId r w).

(** Modelled from the spec: [load(proofId)] fails with [NotFound] if absent. *)
Definition ProofStore_load (proofId : string) : Async World ProofExchangeRecord :=
  λ w, match proofs w !! proofId with
       | Some r => (Return r, w)
       | None => (Throw (NotFound ProofKey proofId), w)
       end.

(** Modelled from the spec: [listIds()] returns all known ids, in no
    specified order. *)
Definition ProofStore_listIds : Async World (list string) :=
  λ w, (Return (elements (dom (proofs w))), w).

(** *** ConnectionResolver *)

(** Modelled from the spec: [load(connectionId)] returns a connection handle
    or fails with [NotFound]. *)
Definition ConnectionResolver_load (connectionId : string)
  : Async World ConnectionHandle :=
  λ w, match connections w !! connectionId with
       | Some c => (Return c, w)
       | None => (Throw (NotFound ConnectionKey connectionId), w)
       end.

(** *** The logging sink and the pause *)

(** Modelled from the spec: a logging sink accepting leveled text messages. *)
Definition sink : Logger World :=
  {| info := λ line w, (Return (), emit (Logged Info line) w);
     warn := λ line w, (Return (), emit (Logged Warn line) w) |}.

(** Modelled from the spec: the pause of sleep-promise; it is recorded, with
    its length in milliseconds, in the journal. *)
Definition pause (ms : N) : Async World unit :=
  λ w, (Return (), emit (Slept ms) w).

(** *** ProofStateMachine *)

(** Modelled from the spec: the record that [create] builds: it is in
    [INITIAL], holds the payload, and has no message, connection or error
    yet. *)
Definition fresh (data : Payload) : ProofExchangeRecord :=
  {| state := INITIAL; proofRequestPayload := data; proofRequestMessage := "";
     connectionId := None; lastError := None |}.

(** Modelled from the spec: row [(none) | create(proofData) | INITIAL] of the
    transition table; malformed criteria are a [ValidationError]. *)
Definition ProofStateMachine_create (data : Payload)
  : Async World ProofExchangeRecord :=
  λ w, if well_formed data
       then (Return (fresh data), emit (Created data) w)
       else (Throw ValidationError, w).

(** Modelled from the spec: the record after its request went out on [c]:
    it is in [REQUEST_SENT], caches the message and refers to the connection. *)
Definition requested (r : ProofExchangeRecord) (c : ConnectionHandle)
  : ProofExchangeRecord :=
  {| state := REQUEST_SENT;
     proofRequestPayload := proofRequestPayload r;
     proofRequestMessage := request_message (proofRequestPayload r);
     connectionId := Some (channel c);
     lastError := lastError r |}.

(** Modelled from the spec: row [INITIAL | requestProof(connection) |
    REQUEST_SENT]: the message is generated and dispatched on the
    connection.  A transport error is surfaced as [TransportError] and leaves
    the record in its prior state.  The table has no other [requestProof]
    row: from any other state the call is refused and changes nothing. *)
Definition ProofStateMachine_requestProof
    (r : ProofExchangeRecord) (c : ConnectionHandle)
  : Async World (unit * ProofExchangeRecord) :=
  λ w, if decide (channel c ∈ down w) then (Throw TransportError, w)
       else match state r with
            | INITIAL =>
                (Return ((), requested r c),
                 emit (Dispatched (channel c)
                         (request_message (proofRequestPayload r))) w)
            | _ => (Throw ValidationError, w)
            end.

(** Modelled from the spec: the record after a poll moved it to [s]; the
    failure detail, when there is one, becomes its [lastError]. *)
Definition settled (r : ProofExchangeRecord) (s : State) (reason : option string)
  : ProofExchangeRecord :=
  {| state := s;
     proofRequestPayload := proofRequestPayload r;
     proofRequestMessage := proofRequestMessage r;
     connectionId := connectionId r;
     lastError := match reason with Some _ => reason | None => lastError r end |}.

(** Modelled from the spec: where a record in [REQUEST_SENT] goes on a
    message, and the failure detail that is cached: a valid presentation
    verifies, an invalid one or a decline rejects, and a message that cannot
    be read is unrecoverable. *)
Definition verdict (m : Incoming) : State * option string :=
  match m with
  | Presentation true => (VERIFIED, None)
  | Presentation false => (REJECTED, Some "presentation failed validation")
  | Declined => (REJECTED, Some "declined by counterparty")
  | Malformed => (FAILED, Some "malformed message")
  end.

(** Modelled from the spec: the [updateState(connection)] rows of the
    transition table.  From [REQUEST_SENT] a poll that finds no new message
    is a no-op, and a poll that finds one consumes it and moves the record
    as [verdict] says.  A transport error is surfaced as [TransportError] and
    leaves the record in its prior state.  No row leaves another state: there
    the poll reports the state and changes nothing.  The specification does
    not say how much of what is waiting a poll takes; here it takes the
    oldest message, and nothing proved about the service rests on that. *)
Definition ProofStateMachine_updateState
    (r : ProofExchangeRecord) (c : ConnectionHandle)
  : Async World (State * ProofExchangeRecord) :=
  λ w, if decide (channel c ∈ down w) then (Throw TransportError, w)
       else match state r with
            | REQUEST_SENT =>
                match pending c w with
                | [] => (Return (REQUEST_SENT, r), w)
                | m :: rest =>
                    let '(s, reason) := verdict m in
                    (Return (s, settled r s reason), requeue (channel c) rest w)
                end
            | s => (Return (s, r), w)
            end.

(** Modelled from the spec: [getState] is a pure read with no side effects. *)
Definition ProofStateMachine_getState (r : ProofExchangeRecord)
  : Async World (State * ProofExchangeRecord) :=
  λ w, (Return (state r, r), w).

(** Modelled from the spec: [getProofRequestMessage] returns the message
    that was computed once for the request and cached in the record. *)
Definition ProofStateMachine_getProofRequestMessage (r : ProofExchangeRecord)
  : Async World (string * ProofExchangeRecord) :=
  λ w, (Return (proofRequestMessage r, r), w).

(** *** The service over the core *)

(** The imports of the service, bound to the model. *)

#[export] Instance core_vcx : Vcx World := {|
  VcxProof := ProofExchangeRecord;
  Connection := ConnectionHandle;
  ProofData := Payload;
  StateType := State;
  sleep := pause;
  JSON_stringify := Payload_json;
  String_of_state := State_name;
  Proof_create := ProofStateMachine_create;
  proof_requestProof := ProofStateMachine_requestProof;
  proof_getState := ProofStateMachine_getState;
  proof_getProofRequestMessage := ProofStateMachine_getProofRequestMessage;
  proof_updateStateV2 := ProofStateMachine_updateState;
|}.

(** The argument of [createServiceVerifier], bound to the model. *)
Definition core_deps : Deps World :=
  {| logger := sink;
     loadConnection := ConnectionResolver_load;
     saveProof := ProofStore_save;
     loadProof := ProofStore_load;
     listProofIds := ProofStore_listIds |}.

(** *** What the journal shows *)

(** The line [createProof] logs before anything else. *)
Definition announcement (proofId : string) (data : Payload) : Event :=
  Logged Info ("Verifier creating proof " +:+ proofId +:+ ", proofData="
                 +:+ Payload_json data).

(** The line [printInfo] logs for the record [r] stored under [id]. *)
Definition diagnostic (id : string) (r : ProofExchangeRecord) : Event :=
  Logged Info ("Proof " +:+ id +:+ " state=" +:+ State_name (state r)).

(** The lines [printInfo] logs for those of [ids] that a store knows. *)
Definition diagnostics (m : gmap string ProofExchangeRecord) (ids : list string)
  : list Event :=
  omap (λ id, diagnostic id <$> m !! id) ids.

(** The warning of [getVcxProof]. *)
Definition discouragement : Event :=
  Logged Warn "Usage of getVcxProof is not recommended. You should use vcxagent-core API rather than work with vcx object directly.".

(** A journal in which a pause comes after a record was created. *)
Definition settles_after_creation (evs : list Event) : Prop :=
  ∃ (before : list Event) data (between : list Event) ms rest,
    evs = (before ++ Created data :: between ++ Slept ms :: rest)%list.

(** Two calls of [getProofRequestMessage] in succession on a record: the
    two messages, and the record as the second call left it. *)
Definition getProofRequestMessage_twice (r : ProofExchangeRecord)
  : Async World (string * string * ProofExchangeRecord) :=
  '(first, r) ← ProofStateMachine_getProofRequestMessage r;
  '(second, r) ← ProofStateMachine_getProofRequestMessage r;
  mret (first, second, r).

End Core.

(** ** A concrete setting

    Criteria that list the attributes asked for, as in
    [{attrs: ["name"]}]; they are well formed when they ask for something. *)

Definition dquote : string := String "034"%char "".

Definition quoted (s : string) : string := dquote +:+ s +:+ dquote.

(** The JSON text of [{attrs: [...]}], for attribute names that need no
    escaping. *)
Definition attrs_json (attrs : list string) : string :=
  "{" +:+ quoted "attrs" +:+ ":[" +:+ String.concat "," (quoted <$> attrs) +:+ "]}".

#[export] Instance attrs_criteria : Criteria := {|
  Payload := list string;
  well_formed := λ attrs, bool_decide (attrs ≠ []);
  Payload_json := attrs_json;
  request_message := λ attrs, "proof-request " +:+ attrs_json attrs;
|}.

(** The criteria [{attrs: ["name"]}]. *)
Definition attrs1 : Payload := ["name"].

Definition conn1 : ConnectionHandle := {| channel := "conn1" |}.

(** A world that knows the connection [conn1] and nothing else. *)
Definition world0 : World :=
  {| proofs := ∅; connections := {[ "conn1" := conn1 ]}; inbox := ∅;
     down := ∅; events := [] |}.

(** The record that [create] builds from [attrs1]. *)
Definition new1 : ProofExchangeRecord := fresh attrs1.

(** That record after its request went out on [conn1]. *)
Definition sent1 : ProofExchangeRecord := requested new1 conn1.

(** The world [world0] with the record [sent1] stored under [p1]. *)
Definition world1 : World := store "p1" sent1 world0.

(** The world [world1] with a new record stored under [p2]. *)
Definition world2 : World := store "p2" new1 world1.

(** The world [world2] while the transport of [conn1] is failing. *)
Definition world2_down : World :=
  {| proofs := proofs world2; connections := connections world2;
     inbox := inbox world2; down := {[ "conn1" ]}; events := events world2 |}.

(** ** The interactive client

    The loop of [createInteractiveClient]: it runs for ever, and each turn
    asks for a command and dispatches on it.  [Client.turn] is the body of
    that loop.  The agent it drives and the terminal it reads from are
    outside the sources and are taken as collaborators. *)

Module Client.

(** The logger of the client, [require('./logger')('VCX Client')]. *)
Record Logger (W : Type) := {
  info : string → Async W unit;
  error : string → Async W unit;
  debug : string → Async W unit;
}.
Arguments info {W} _ _.
Arguments error {W} _ _.
Arguments debug {W} _ _.

(** What the client imports: [question] of readline-sync,
    [getSampleSchemaData] of vcxagent-core, the objects that the agent hands
    back with their [serialize], and [JSON.stringify] on what is logged. *)
Class Lib (W : Type) := {
  SchemaData : Type;
  Schema : Type;
  CredentialDef : Type;
  Json : Type;
  Messages : Type;
  question : string → Async W string;
  getSampleSchemaData : Async W SchemaData;
  schema_serialize : Schema → Async W Json;
  credentialDef_serialize : CredentialDef → Async W Json;
  JSON_stringify : Json → string;
  JSON_stringify_messages : Messages → string;
}.

(** The methods of the agent that the loop calls; a result that the loop
    drops is not kept. *)
Record AriesAgent (W : Type) `{Lib W} := {
  acceptTaa : Async W unit;
  createSchema : SchemaData → Async W Schema;
  createCredentialDefinition : string → string → Async W CredentialDef;
  inviterConnectionCreateAndAccept :
    string → (string → Async W unit) → Async W unit;
  inviteeConnectionAcceptFromInvitationAndProgress :
    string → string → Async W unit;
  connectionAutoupdate : string → Async W unit;
  connectionPrintInfo : string → Async W unit;
  connectionsList : Async W unit;
  getCredentialOffers : string → Async W unit;
  sendMessage : string → string → Async W unit;
  getMessages : string → list string → list string → Async W Messages;
}.
Arguments acceptTaa {W _} _.
Arguments createSchema {W _} _ _.
Arguments createCredentialDefinition {W _} _ _ _.
Arguments inviterConnectionCreateAndAccept {W _} _ _ _.
Arguments inviteeConnectionAcceptFromInvitationAndProgress {W _} _ _ _.
Arguments connectionAutoupdate {W _} _ _.
Arguments connectionPrintInfo {W _} _ _.
Arguments connectionsList {W _} _.
Arguments getCredentialOffers {W _} _ _.
Arguments sendMessage {W _} _ _ _.
Arguments getMessages {W _} _ _ _ _.

(** The line feed of [\n]. *)
Definition nl : string := String "010"%char "".

(** The table [commands], in the order it is written, which is the order of
    its integer-like keys. *)
Definition commands : list (string * string) :=
  [ ("0", "ACCEPT_TAA");
    ("1", "CREATE_SCHEMA");
    ("2", "CREATE_CRED_DEF");
    ("10", "CONNECTION_INVITER_CREATE");
    ("11", "CONNECTION_INVITEE_ACCEPT");
    ("12", "CONNECTION_PROGRESS");
    ("13", "CONNECTION_INFO");
    ("14", "CONNECTIONS_INFO");
    ("20", "GET_CREDENTIAL_OFFERS");
    ("30", "SEND_MESSAGE");
    ("31", "GET_MESSAGE") ].

(** [JSON.stringify(obj, null, 2)] on an object whose values are strings
    and whose keys and values need no escaping. *)
Definition JSON_stringify_2 (obj : list (string * string)) : string :=
  match obj with
  | [] => "{}"
  | _ =>
      "{" +:+ nl
        +:+ String.concat ("," +:+ nl)
              ((λ '(k, v), "  " +:+ quoted k +:+ ": " +:+ quoted v) <$> obj)
        +:+ nl +:+ "}"
  end.

(** The question that opens a turn. *)
Definition select_action : string :=
  "Select action: " +:+ JSON_stringify_2 commands +:+ nl.

(** A string is truthy when it is not empty. *)
Definition truthy (s : string) : bool := negb (String.eqb s "").

(** [a === b] on strings. *)
Definition strict_eq (a b : string) : bool := String.eqb a b.

Section Loop.
Context {W : Type} `{Lib W} (logger : Logger W) (ariesAgent : AriesAgent W).

(** One turn of the [while (true)] loop. *)
Definition turn : Async W unit :=
  cmd ← question select_action;
  if truthy cmd then
    if strict_eq cmd "0" then
      info logger ("Going to accept taa." +:+ nl) ;;
      acceptTaa ariesAgent ;;
      info logger ("Taa accepted." +:+ nl)
    else if strict_eq cmd "1" then
      info logger ("Cmd was " +:+ cmd +:+ ", going to create schema" +:+ nl) ;;
      data ← getSampleSchemaData;
      schema ← createSchema ariesAgent data;
      json ← schema_serialize schema;
      info logger ("Schema created " +:+ JSON_stringify json)
    else if strict_eq cmd "2" then
      schemaId ← question ("Enter schemaId:" +:+ nl);
      name ← question ("Enter credDef name:" +:+ nl);
      info logger ("Cmd was " +:+ cmd +:+ ", going to create cred def") ;;
      credentialDef ← createCredentialDefinition ariesAgent schemaId name;
      json ← credentialDef_serialize credentialDef;
      info logger ("Credential definition " +:+ JSON_stringify json)
    else if strict_eq cmd "10" then
      connectionId ← question ("Enter connection id:" +:+ nl);
      inviterConnectionCreateAndAccept ariesAgent connectionId
        (λ invitationString,
           info logger ("Connection " +:+ connectionId
                          +:+ " created. Invitation: " +:+ invitationString))
    else if strict_eq cmd "11" then
      connectionId ← question ("Enter connection id:" +:+ nl);
      invitationString ← question ("Enter invitation:" +:+ nl);
      inviteeConnectionAcceptFromInvitationAndProgress ariesAgent
        connectionId invitationString
    else if strict_eq cmd "12" then
      connectionId ← question ("Enter connection id:" +:+ nl);
      connectionAutoupdate ariesAgent connectionId
    else if strict_eq cmd "13" then
      connectionId ← question ("Enter connection id:" +:+ nl);
      connectionPrintInfo ariesAgent connectionId
    else if strict_eq cmd "14" then
      info logger "Listing connections:" ;;
      connectionsList ariesAgent
    else if strict_eq cmd "20" then
      connectionId ← question ("Enter connection id:" +:+ nl);
      getCredentialOffers ariesAgent connectionId
    else if strict_eq cmd "30" then
      connectionId ← question ("Enter connection id:" +:+ nl);
      message ← question ("Enter message to send:" +:+ nl);
      sendMessage ariesAgent connectionId message
    else if strict_eq cmd "31" then
      connectionId ← question ("Enter connection id:" +:+ nl);
      messages ← getMessages ariesAgent connectionId [] [];
      info logger ("Found messages" +:+ nl +:+ ":" +:+ JSON_stringify_messages messages)
    else
      error logger ("Unknown command " +:+ cmd)
  else
    mret ().

End Loop.

(** The logger [logger] with another [error]. *)
Definition with_error {W} (f : string → Async W unit) (logger : Logger W)
  : Logger W :=
  {| info := info logger; error := f; debug := debug logger |}.

(** *** A desk to try the client at

    A terminal that answers from a script (and with the empty line once the
    script is over), a logger that keeps what it is given, and an agent whose
    methods do nothing but note that they were called. *)

Record Desk := {
  script : list string;
  printed : list (string * string);
  called : list string;
}.

Definition answer : Async Desk string :=
  λ d, match script d with
       | [] => (Return "", d)
       | a :: rest =>
           (Return a, {| script := rest; printed := printed d; called := called d |})
       end.

Definition print (level line : string) : Async Desk unit :=
  λ d, (Return (), {| script := script d; printed := printed d ++ [(level, line)];
                      called := called d |}).

Definition note (method : string) : Async Desk unit :=
  λ d, (Return (), {| script := script d; printed := printed d;
                      called := called d ++ [method] |}).

#[export] Instance desk_lib : Lib Desk := {|
  SchemaData := unit;
  Schema := unit;
  CredentialDef := unit;
  Json := unit;
  Messages := unit;
  question := λ _, answer;
  getSampleSchemaData := mret ();
  schema_serialize := λ _, mret ();
  credentialDef_serialize := λ _, mret ();
  JSON_stringify := λ _, "{}";
  JSON_stringify_messages := λ _, "[]";
|}.

Definition desk_logger : Logger Desk :=
  {| info := print "info"; error := print "error"; debug := print "debug" |}.

Definition desk_agent : AriesAgent Desk :=
  {| acceptTaa := note "acceptTaa";
     createSchema := λ _, note "createSchema";
     createCredentialDefinition := λ _ _, note "createCredentialDefinition";
     inviterConnectionCreateAndAccept :=
       λ _ _, note "inviterConnectionCreateAndAccept";
     inviteeConnectionAcceptFromInvitationAndProgress :=
       λ _ _, note "inviteeConnectionAcceptFromInvitationAndProgress";
     connectionAutoupdate := λ _, note "connectionAutoupdate";
     connectionPrintInfo := λ _, note "connectionPrintInfo";
     connectionsList := note "connectionsList";
     getCredentialOffers := λ _, note "getCredentialOffers";
     sendMessage := λ _ _, note "sendMessage";
     getMessages := λ _ _ _, note "getMessages" |}.

(** A desk where the user is about to type the given lines. *)
Definition desk (lines : list string) : Desk :=
  {| script := lines; printed := []; called := [] |}.

End Client.

(** ** Facts about asynchronous computations *)

Lemma bind_Return {W A B} (m : Async W A) (k : A → Async W B) w a w' :
  m w = (Return a, w') → (m ≫= k) w = k a w'.
Proof. intros Hm. unfold mbind, Async_bind. by rewrite Hm. Qed.

Lemma bind_Throw {W A B} (m : Async W A) (k : A → Async W B) w e w' :
  m w = (Throw e, w') → (m ≫= k) w = (Throw e, w').
Proof. intros Hm. unfold mbind, Async_bind. by rewrite Hm. Qed.

(** ** The service on arbitrary collaborators *)

Section ServiceFacts.
Context {W : Type} `{Vcx W} (deps : Deps W).

(** C9.  [sendProofRequest] resolves the connection before it touches the
    proof store.  Whatever the collaborators are, when the connection lookup
    rejects, the call rejects with that lookup's error and leaves the world
    exactly as that lookup left it: [loadProof] and [saveProof], which are
    arbitrary here, have not run.  In particular, when the proof id is
    unresolvable too, it is the connection's failure that is reported. *)
Theorem sendProofRequest_connection_first connectionId proofId w e w' :
  loadConnection deps connectionId w = (Throw e, w') →
  sendProofRequest deps connectionId proofId w = (Throw e, w').
Proof. intros Hc. unfold sendProofRequest. by apply bind_Throw. Qed.

(** [getState] rejects when the proof lookup rejects. *)
Lemma getState_load_rejects proofId w e w' :
  loadProof deps proofId w = (Throw e, w') →
  getState deps proofId w = (Throw e, w').
Proof. intros Hp. unfold getState. by apply bind_Throw. Qed.

(** The loop of [printInfo], one turn at a time. *)
Lemma printInfo_nil w : printInfo deps [] w = (Return (), w).
Proof. reflexivity. Qed.

Lemma printInfo_cons_rejects id ids w e w' :
  getState deps id w = (Throw e, w') →
  printInfo deps (id :: ids) w = (Throw e, w').
Proof.
  intros Hs. unfold printInfo. cbn [for_of].
  apply bind_Throw. by apply bind_Throw.
Qed.

Lemma printInfo_cons_logs id ids w s w1 w2 :
  getState deps id w = (Return s, w1) →
  info (logger deps) ("Proof " +:+ id +:+ " state=" +:+ String_of_state s) w1
    = (Return (), w2) →
  printInfo deps (id :: ids) w = printInfo deps ids w2.
Proof.
  intros Hs Hl. unfold printInfo. cbn [for_of].
  rewrite (bind_Return _ _ w () w2); [done |].
  by rewrite (bind_Return _ _ w s w1).
Qed.

End ServiceFacts.

(** ** The service on the core *)

Section CoreFacts.
Context {criteria : Criteria}.

Implicit Types (w : World) (r : ProofExchangeRecord) (c : ConnectionHandle).

Lemma journal_nil w : journal [] w = w.
Proof. destruct w. unfold journal. cbn. by rewrite app_nil_r. Qed.

Lemma journal_journal evs1 evs2 w :
  journal evs2 (journal evs1 w) = journal (evs1 ++ evs2) w.
Proof. unfold journal. cbn. by rewrite app_assoc. Qed.

Lemma store_same proofId r w :
  proofs w !! proofId = Some r → store proofId r w = w.
Proof. intros Hr. destruct w. unfold store. cbn in *. by rewrite insert_id. Qed.

(** Lookups in the two stores. *)
Lemma ProofStore_load_Some proofId r w :
  proofs w !! proofId = Some r → ProofStore_load proofId w = (Return r, w).
Proof. intros Hr. unfold ProofStore_load. by rewrite Hr. Qed.

Lemma ProofStore_load_None proofId w :
  proofs w !! proofId = None →
  ProofStore_load proofId w = (Throw (NotFound ProofKey proofId), w).
Proof. intros Hr. unfold ProofStore_load. by rewrite Hr. Qed.

Lemma ConnectionResolver_load_Some connectionId c w :
  connections w !! connectionId = Some c →
  ConnectionResolver_load connectionId w = (Return c, w).
Proof. intros Hc. unfold ConnectionResolver_load. by rewrite Hc. Qed.

Lemma ConnectionResolver_load_None connectionId w :
  connections w !! connectionId = None →
  ConnectionResolver_load connectionId w
    = (Throw (NotFound ConnectionKey connectionId), w).
Proof. intros Hc. unfold ConnectionResolver_load. by rewrite Hc. Qed.

(** [getState] on the core, in full. *)
Lemma getState_core proofId w :
  getState core_deps proofId w =
    (match proofs w !! proofId with
     | Some r => Return (state r)
     | None => Throw (NotFound ProofKey proofId)
     end, w).
Proof.
  unfold getState. cbn. unfold mbind, Async_bind, ProofStore_load.
  by destruct (proofs w !! proofId).
Qed.

(** [createProof] on the core, in full. *)
Lemma createProof_core proofId data w :
  createProof core_deps proofId data w =
    if well_formed data
    then (Return (fresh data),
          store proofId (fresh data)
            (journal [announcement proofId data; Slept 1000; Created data] w))
    else (Throw ValidationError,
          journal [announcement proofId data; Slept 1000] w).
Proof.
  unfold createProof. cbn.
  unfold mbind, Async_bind, pause, ProofStateMachine_create, ProofStore_save, emit.
  destruct (well_formed data); by rewrite !journal_journal.
Qed.

(** *** createProof *)

(** [createProof] has no check for an id that is already taken. *)
Lemma createProof_never_DuplicateId proofId data w :
  outcome (createProof core_deps proofId data w) ≠ Throw DuplicateId.
Proof. rewrite createProof_core. by destruct (well_formed data). Qed.

(** C1, as amended.  For every world and every proof id, taken or not,
    [createProof] with well-formed criteria builds a new record, which is in
    [INITIAL], persists it under the id in place of whatever was stored
    there, and returns it. *)
Theorem createProof_persists_new_record proofId data w :
  well_formed data = true →
  outcome (createProof core_deps proofId data w) = Return (fresh data)
  ∧ state (fresh data) = INITIAL
  ∧ proofs (after (createProof core_deps proofId data w))
      = <[proofId := fresh data]> (proofs w).
Proof. intros Hwf. rewrite createProof_core, Hwf. done. Qed.

(** C3, as amended.  [createProof] pauses for a fixed 1000 ms right after
    its log line and before the record is created; nothing is paused for
    once the record exists, and the length does not depend on the arguments
    of the call. *)
Theorem createProof_pauses_first proofId data w :
  events (after (createProof core_deps proofId data w)) =
    events w ++ announcement proofId data :: Slept 1000
      :: (if well_formed data then [Created data] else []).
Proof. rewrite createProof_core. by destruct (well_formed data). Qed.

(** *** printInfo *)

Lemma diagnostics_known m id r ids :
  m !! id = Some r → diagnostics m (id :: ids) = diagnostic id r :: diagnostics m ids.
Proof. intros Hr. unfold diagnostics. cbn. by rewrite Hr. Qed.

(** X18.  When every id of the batch is stored, [printInfo] succeeds and
    logs one line per id, in the order of the batch, an id that comes twice
    being logged twice; nothing else changes. *)
Lemma printInfo_all_known ids w :
  Forall (λ id, is_Some (proofs w !! id)) ids →
  printInfo core_deps ids w = (Return (), journal (diagnostics (proofs w) ids) w).
Proof.
  intros Hall. revert w Hall.
  induction ids as [| id ids IH]; intros w Hall.
  - by rewrite printInfo_nil, journal_nil.
  - apply Forall_cons in Hall as [[r Hr] Hall].
    rewrite (printInfo_cons_logs core_deps id ids w (state r) w (emit (diagnostic id r) w)).
    + rewrite IH by done. unfold emit. rewrite journal_journal.
      by rewrite (diagnostics_known (proofs w) id r).
    + by rewrite getState_core, Hr.
    + done.
Qed.

(** C2, as amended.  [printInfo] takes the ids in order and has no handler
    around the read of a state: at the first id that is not in the store the
    call rejects with that id's [NotFound]; the ids before it have been
    logged, and neither the failing id nor any id after it is. *)
Theorem printInfo_stops_at_first_failure known bad rest w :
  Forall (λ id, is_Some (proofs w !! id)) known →
  proofs w !! bad = None →
  printInfo core_deps (known ++ bad :: rest) w =
    (Throw (NotFound ProofKey bad), journal (diagnostics (proofs w) known) w).
Proof.
  intros Hknown Hbad. revert w Hknown Hbad.
  induction known as [| id known IH]; intros w Hknown Hbad.
  - cbn [app diagnostics omap list_omap]. rewrite journal_nil.
    apply printInfo_cons_rejects. by rewrite getState_core, Hbad.
  - apply Forall_cons in Hknown as [[r Hr] Hknown]. cbn [app].
    rewrite (printInfo_cons_logs core_deps id _ w (state r) w (emit (diagnostic id r) w)).
    + rewrite IH by done. unfold emit. rewrite journal_journal.
      by rewrite (diagnostics_known (proofs w) id r).
    + by rewrite getState_core, Hr.
    + done.
Qed.

(** *** sendProofRequest *)

(** C4.  On a connection id that the resolver does not know,
    [sendProofRequest] fails with [NotFound] and the world, with every
    stored proof record in it, is what it was before the call. *)
Theorem sendProofRequest_unknown_connection connectionId proofId w :
  connections w !! connectionId = None →
  sendProofRequest core_deps connectionId proofId w
    = (Throw (NotFound ConnectionKey connectionId), w).
Proof.
  intros Hc. unfold sendProofRequest. apply bind_Throw.
  by apply ConnectionResolver_load_None.
Qed.

(** X19.  On a proof id that the store does not know, with a connection id
    that resolves, [sendProofRequest] fails with the proof's [NotFound];
    nothing is requested or saved and the world is unchanged. *)
Lemma sendProofRequest_unknown_proof connectionId proofId c w :
  connections w !! connectionId = Some c →
  proofs w !! proofId = None →
  sendProofRequest core_deps connectionId proofId w
    = (Throw (NotFound ProofKey proofId), w).
Proof.
  intros Hc Hr. unfold sendProofRequest.
  rewrite (bind_Return _ _ w c w) by by apply ConnectionResolver_load_Some.
  apply bind_Throw. by apply ProofStore_load_None.
Qed.

(** [requestProof] leaves both stores alone. *)
Lemma requestProof_stores r c w r' w1 :
  ProofStateMachine_requestProof r c w = (Return ((), r'), w1) →
  proofs w1 = proofs w ∧ connections w1 = connections w.
Proof.
  unfold ProofStateMachine_requestProof. intros Hreq.
  destruct (decide (channel c ∈ down w)); [done |].
  destruct (state r); by simplify_eq.
Qed.

(** What [requestProof] does when it succeeds: the record was in
    [INITIAL], the transport was up, and the request went out once. *)
Lemma requestProof_Return r c w r' w1 :
  ProofStateMachine_requestProof r c w = (Return ((), r'), w1) →
  state r = INITIAL ∧ (channel c ∉ down w) ∧ r' = requested r c
  ∧ w1 = emit (Dispatched (channel c) (request_message (proofRequestPayload r))) w.
Proof.
  unfold ProofStateMachine_requestProof. intros Hreq.
  destruct (decide (channel c ∈ down w)); [done |].
  destruct (state r); by simplify_eq.
Qed.

(** C5, as amended.  With a connection id and a proof id that both resolve,
    [sendProofRequest] runs [requestProof] on the loaded record with the
    loaded connection; provided that call succeeds, the record as
    [requestProof] left it is persisted under the proof id, and the call
    returns that record's state and its proof request message. *)
Theorem sendProofRequest_requests_and_persists connectionId proofId c r r' w w1 :
  connections w !! connectionId = Some c →
  proofs w !! proofId = Some r →
  ProofStateMachine_requestProof r c w = (Return ((), r'), w1) →
  sendProofRequest core_deps connectionId proofId w =
    (Return {| ProofRequestSent.state := state r';
               ProofRequestSent.proofRequestMessage := proofRequestMessage r' |},
     store proofId r' w1).
Proof.
  intros Hc Hr Hreq. unfold sendProofRequest.
  rewrite (bind_Return _ _ w c w) by by apply ConnectionResolver_load_Some.
  rewrite (bind_Return _ _ w r w) by by apply ProofStore_load_Some.
  by rewrite (bind_Return _ _ w ((), r') w1).
Qed.

(** When [requestProof] fails, so does [sendProofRequest], and nothing is
    persisted. *)
Lemma sendProofRequest_request_rejects connectionId proofId c r e w w1 :
  connections w !! connectionId = Some c →
  proofs w !! proofId = Some r →
  ProofStateMachine_requestProof r c w = (Throw e, w1) →
  sendProofRequest core_deps connectionId proofId w = (Throw e, w1).
Proof.
  intros Hc Hr Hreq. unfold sendProofRequest.
  rewrite (bind_Return _ _ w c w) by by apply ConnectionResolver_load_Some.
  rewrite (bind_Return _ _ w r w) by by apply ProofStore_load_Some.
  by apply bind_Throw.
Qed.

(** C8.  Once [requestProof] has run on a record, two calls of
    [getProofRequestMessage] in succession give the same text, the one that
    [requestProof] generated; the calls leave the record and the world as
    they were, so nothing is generated or dispatched again. *)
Theorem getProofRequestMessage_twice_same r c w r' w1 :
  ProofStateMachine_requestProof r c w = (Return ((), r'), w1) →
  getProofRequestMessage_twice r' w1 =
    (Return (request_message (proofRequestPayload r),
             request_message (proofRequestPayload r), r'), w1).
Proof.
  intros Hreq. apply requestProof_Return in Hreq as (_ & _ & -> & _). done.
Qed.

(** *** proofUpdate *)

(** C6.  For a stored record in [REQUEST_SENT], a poll over a working
    connection on which no message is waiting is a no-op: [proofUpdate]
    returns [REQUEST_SENT] and the world, the stored record included, is
    unchanged. *)
Theorem proofUpdate_no_message_noop proofId connectionId r c w :
  proofs w !! proofId = Some r →
  state r = REQUEST_SENT →
  connections w !! connectionId = Some c →
  channel c ∉ down w →
  pending c w = [] →
  proofUpdate core_deps proofId connectionId w = (Return REQUEST_SENT, w).
Proof.
  intros Hr Hst Hc Hup Hnone. unfold proofUpdate.
  rewrite (bind_Return _ _ w r w) by by apply ProofStore_load_Some.
  rewrite (bind_Return _ _ w c w) by by apply ConnectionResolver_load_Some.
  rewrite (bind_Return _ _ w (REQUEST_SENT, r) w).
  - cbn. unfold mbind, Async_bind, ProofStore_save. by rewrite store_same.
  - cbn. unfold ProofStateMachine_updateState.
    rewrite decide_False by done. by rewrite Hst, Hnone.
Qed.

(** *** getState and getVcxProof *)

(** C7.  [getState] is a pure read: the world after the call is the world
    before it, so neither the record nor the store is modified; it returns
    the state of the record stored under the id, and it fails, with
    [NotFound], exactly when no record is stored under the id. *)
Theorem getState_pure_read proofId w :
  after (getState core_deps proofId w) = w
  ∧ outcome (getState core_deps proofId w)
      = match proofs w !! proofId with
        | Some r => Return (state r)
        | None => Throw (NotFound ProofKey proofId)
        end
  ∧ ((∃ e, outcome (getState core_deps proofId w) = Throw e)
       ↔ proofs w !! proofId = None)
  ∧ (outcome (getState core_deps proofId w) = Throw (NotFound ProofKey proofId)
       ↔ proofs w !! proofId = None).
Proof.
  rewrite getState_core. cbn.
  destruct (proofs w !! proofId) as [r |]; repeat split;
    try done; try (by intros [e He]); eauto.
Qed.

(** C10.  The service object has an operation [getVcxProof]; it logs a
    warning and then is the lookup in the proof store: it returns exactly
    the record stored under the id, and fails with [NotFound] when there is
    none. *)
Theorem getVcxProof_passthrough proofId w :
  ServiceVerifier.getVcxProof _ (createServiceVerifier core_deps) proofId w
    = getVcxProof core_deps proofId w
  ∧ getVcxProof core_deps proofId w =
      (match proofs w !! proofId with
       | Some r => Return r
       | None => Throw (NotFound ProofKey proofId)
       end, emit discouragement w).
Proof.
  split; [done |].
  unfold getVcxProof. cbn. unfold mbind, Async_bind, ProofStore_load. cbn.
  by destruct (proofs w !! proofId).
Qed.

End CoreFacts.

(** ** The service at work *)

(** The scenarios of the specification, run on the core. *)
Example scenario_create :
  outcome ((createProof core_deps "p1" attrs1 ;; getState core_deps "p1") world0)
    = Return INITIAL.
Proof. vm_compute. reflexivity. Qed.

Example scenario_verified :
  outcome (sendProofRequest core_deps "conn1" "p2" world2)
    = Return {| ProofRequestSent.state := REQUEST_SENT;
                ProofRequestSent.proofRequestMessage :=
                  "proof-request " +:+ attrs_json attrs1 |}
  ∧ outcome (proofUpdate core_deps "p1" "conn1" (deliver conn1 (Presentation true) world1))
      = Return VERIFIED.
Proof. split; vm_compute; reflexivity. Qed.

Example scenario_declined :
  outcome (proofUpdate core_deps "p1" "conn1" (deliver conn1 Declined world1))
    = Return REJECTED
  ∧ (lastError <$> proofs (after (proofUpdate core_deps "p1" "conn1"
                                    (deliver conn1 Declined world1))) !! "p1")
      = Some (Some "declined by counterparty").
Proof. split; vm_compute; reflexivity. Qed.

Example scenario_listIds :
  ∃ ids, outcome (listIds core_deps world2) = Return ids ∧ ids ≡ₚ ["p1"; "p2"].
Proof.
  eexists. split; [vm_compute; reflexivity |].
  first [reflexivity | apply perm_swap].
Qed.

(** ** The theorems at concrete inputs *)

Lemma createProof_persists_new_record_witness :
  proofs world1 !! "p1" = Some sent1
  ∧ well_formed attrs1 = true
  ∧ outcome (createProof core_deps "p1" attrs1 world1) = Return new1
  ∧ state new1 = INITIAL
  ∧ proofs (after (createProof core_deps "p1" attrs1 world1))
      = <[ "p1" := new1 ]> (proofs world1).
Proof.
  split; [reflexivity |]. split; [reflexivity |].
  apply (createProof_persists_new_record (criteria := attrs_criteria) "p1" attrs1 world1). reflexivity.
Defined.

Lemma printInfo_stops_at_first_failure_witness :
  printInfo core_deps ["p1"; "p0"; "p2"] world2 =
    (Throw (NotFound ProofKey "p0"), emit (diagnostic "p1" sent1) world2).
Proof.
  apply (printInfo_stops_at_first_failure (criteria := attrs_criteria) ["p1"] "p0" ["p2"] world2).
  - apply Forall_cons_2; [by exists sent1 | apply Forall_nil_2].
  - reflexivity.
Defined.

Lemma sendProofRequest_unknown_connection_witness :
  connections world1 !! "conn9" = None
  ∧ sendProofRequest core_deps "conn9" "p1" world1
      = (Throw (NotFound ConnectionKey "conn9"), world1).
Proof.
  split; [reflexivity |].
  apply (sendProofRequest_unknown_connection (criteria := attrs_criteria) "conn9" "p1" world1). reflexivity.
Defined.

Lemma sendProofRequest_requests_and_persists_witness :
  sendProofRequest core_deps "conn1" "p2" world2 =
    (Return {| ProofRequestSent.state := REQUEST_SENT;
               ProofRequestSent.proofRequestMessage :=
                 "proof-request " +:+ attrs_json attrs1 |},
     store "p2" sent1
       (emit (Dispatched "conn1" ("proof-request " +:+ attrs_json attrs1)) world2)).
Proof.
  apply (sendProofRequest_requests_and_persists (criteria := attrs_criteria)
           "conn1" "p2" conn1 new1 sent1 world2); reflexivity.
Defined.

Lemma getProofRequestMessage_twice_same_witness :
  getProofRequestMessage_twice sent1
      (emit (Dispatched "conn1" ("proof-request " +:+ attrs_json attrs1)) world2)
    = (Return ("proof-request " +:+ attrs_json attrs1,
               "proof-request " +:+ attrs_json attrs1, sent1),
       emit (Dispatched "conn1" ("proof-request " +:+ attrs_json attrs1)) world2).
Proof.
  apply (getProofRequestMessage_twice_same (criteria := attrs_criteria)
           new1 conn1 world2).
  reflexivity.
Defined.

Lemma proofUpdate_no_message_noop_witness :
  pending conn1 world1 = []
  ∧ proofUpdate core_deps "p1" "conn1" world1 = (Return REQUEST_SENT, world1).
Proof.
  split; [reflexivity |].
  apply (proofUpdate_no_message_noop (criteria := attrs_criteria) "p1" "conn1" sent1 conn1 world1);
    try reflexivity.
  vm_compute. set_solver.
Defined.

Lemma sendProofRequest_connection_first_witness :
  connections world1 !! "conn9" = None
  ∧ proofs world1 !! "p9" = None
  ∧ sendProofRequest core_deps "conn9" "p9" world1
      = (Throw (NotFound ConnectionKey "conn9"), world1).
Proof.
  split; [reflexivity |]. split; [reflexivity |].
  apply (sendProofRequest_connection_first core_deps "conn9" "p9" world1).
  reflexivity.
Defined.

(** ** Where the code differs *)

(** C1, as stated, fails: [p1] is taken in [world1], yet [createProof] on
    [p1] does not fail with [DuplicateId], and the record stored under [p1]
    is no longer the one that was there. *)
Lemma createProof_taken_id_overwrites :
  proofs world1 !! "p1" = Some sent1
  ∧ outcome (createProof core_deps "p1" attrs1 world1) ≠ Throw DuplicateId
  ∧ proofs (after (createProof core_deps "p1" attrs1 world1)) !! "p1" ≠ Some sent1.
Proof. repeat split; vm_compute; congruence. Qed.

(** C2, as stated, fails: [p0] is not in the store of [world2] and [p2]
    is, yet [printInfo] on [p0; p2] rejects and the world is untouched:
    nothing was logged for [p0], and [p2] was never read.  On its own, [p2]
    gets its line. *)
Lemma printInfo_unknown_id_aborts :
  proofs world2 !! "p0" = None
  ∧ proofs world2 !! "p2" = Some new1
  ∧ printInfo core_deps ["p0"; "p2"] world2
      = (Throw (NotFound ProofKey "p0"), world2)
  ∧ printInfo core_deps ["p2"] world2
      = (Return (), emit (diagnostic "p2" new1) world2).
Proof. repeat split; vm_compute; reflexivity. Qed.

(** C3, as stated, fails: in the journal of a [createProof] the pause comes
    before the record is created, and no pause follows the creation. *)
Lemma createProof_no_settle_after_creation :
  events (after (createProof core_deps "p1" attrs1 world0))
    = [announcement "p1" attrs1; Slept 1000; Created attrs1]
  ∧ ¬ settles_after_creation
        (events (after (createProof core_deps "p1" attrs1 world0))).
Proof.
  split; [reflexivity |].
  intros (before & data & between & ms & rest & Hevs).
  change (events (after (createProof core_deps "p1" attrs1 world0)))
    with [announcement "p1" attrs1; Slept 1000; Created attrs1] in Hevs.
  destruct before as [| e1 [| e2 [| e3 [| e4 before]]]]; simplify_eq/=.
  destruct between; simplify_eq/=.
Qed.

(** C5, as stated, fails: in [world2_down] the connection id [conn1] and
    the proof id [p2] both resolve, yet the transport of [conn1] is failing,
    so [requestProof] rejects: [sendProofRequest] fails with
    [TransportError], returns no state and no message, and the record under
    [p2] is not replaced. *)
Lemma sendProofRequest_resolvable_ids_can_fail :
  connections world2_down !! "conn1" = Some conn1
  ∧ proofs world2_down !! "p2" = Some new1
  ∧ outcome (sendProofRequest core_deps "conn1" "p2" world2_down)
      = Throw TransportError
  ∧ proofs (after (sendProofRequest core_deps "conn1" "p2" world2_down)) !! "p2"
      = Some new1.
Proof. repeat split; vm_compute; reflexivity. Qed.

(** ** More on the service, on arbitrary collaborators *)

(** A loop over two lists, one after the other, is the loop over the first
    followed by the loop over the second. *)
Lemma for_of_app {W A} (xs ys : list A) (body : A → Async W unit) w :
  for_of (xs ++ ys) body w = (for_of xs body ;; for_of ys body) w.
Proof.
  revert w. induction xs as [| x xs IH]; intros w; [done |].
  cbn [app for_of]. unfold mbind, Async_bind in *.
  destruct (body x w) as [[[] | e] w1]; [apply IH | done].
Qed.

Section ServiceSteps.
Context {W : Type} `{Vcx W} (deps : Deps W).

(** X1.  [proofUpdate] loads the proof record before it resolves the
    connection: when the proof lookup rejects, the call rejects with that
    error and leaves the world as the lookup left it, whatever the
    connection id is and whatever the other collaborators are. *)
Theorem proofUpdate_proof_first proofId connectionId w e w' :
  loadProof deps proofId w = (Throw e, w') →
  proofUpdate deps proofId connectionId w = (Throw e, w').
Proof. intros Hp. unfold proofUpdate. by apply bind_Throw. Qed.

(** X2.  [sendProofRequest] saves only after [requestProof] has succeeded:
    when [requestProof] rejects, the call rejects with that error and the
    world is as [requestProof] left it; [saveProof], arbitrary here, has not
    run. *)
Theorem sendProofRequest_failed_request_not_saved
    connectionId proofId connection proof w w1 w2 e w3 :
  loadConnection deps connectionId w = (Return connection, w1) →
  loadProof deps proofId w1 = (Return proof, w2) →
  proof_requestProof proof connection w2 = (Throw e, w3) →
  sendProofRequest deps connectionId proofId w = (Throw e, w3).
Proof.
  intros Hc Hp Hreq. unfold sendProofRequest.
  rewrite (bind_Return _ _ w connection w1) by done.
  rewrite (bind_Return _ _ w1 proof w2) by done.
  by apply bind_Throw.
Qed.

(** X3.  [proofUpdate] saves only after the poll has succeeded: when
    [updateStateV2] rejects, the call rejects with that error and the world
    is as the poll left it; [saveProof] has not run. *)
Theorem proofUpdate_failed_poll_not_saved
    proofId connectionId connection proof w w1 w2 e w3 :
  loadProof deps proofId w = (Return proof, w1) →
  loadConnection deps connectionId w1 = (Return connection, w2) →
  proof_updateStateV2 proof connection w2 = (Throw e, w3) →
  proofUpdate deps proofId connectionId w = (Throw e, w3).
Proof.
  intros Hp Hc Hpoll. unfold proofUpdate.
  rewrite (bind_Return _ _ w proof w1) by done.
  rewrite (bind_Return _ _ w1 connection w2) by done.
  by apply bind_Throw.
Qed.

(** X4.  [printInfo] on a batch that is two batches put together is
    [printInfo] on the first followed by [printInfo] on the second; a failure
    in the first keeps the second from starting. *)
Theorem printInfo_app ids1 ids2 w :
  printInfo deps (ids1 ++ ids2) w
    = (printInfo deps ids1 ;; printInfo deps ids2) w.
Proof. unfold printInfo. apply for_of_app. Qed.

End ServiceSteps.

(** ** More on the service, on the core *)

Section CoreSteps.
Context {criteria : Criteria}.

Implicit Types (w : World) (r : ProofExchangeRecord) (c : ConnectionHandle).

(** A failed [requestProof] or poll leaves the world alone; a successful
    poll leaves the proof store alone. *)
Lemma requestProof_Throw r c w e w1 :
  ProofStateMachine_requestProof r c w = (Throw e, w1) → w1 = w.
Proof.
  unfold ProofStateMachine_requestProof. intros Hreq.
  destruct (decide (channel c ∈ down w)); [by simplify_eq |].
  destruct (state r); by simplify_eq.
Qed.

Lemma updateState_Throw r c w e w1 :
  ProofStateMachine_updateState r c w = (Throw e, w1) → w1 = w.
Proof.
  unfold ProofStateMachine_updateState. intros Hpoll.
  destruct (decide (channel c ∈ down w)); [by simplify_eq |].
  destruct (state r); try done.
  destruct (pending c w) as [| m rest]; [done |].
  by destruct (verdict m).
Qed.

Lemma updateState_Return r c w s r' w1 :
  ProofStateMachine_updateState r c w = (Return (s, r'), w1) →
  state r' = s ∧ proofs w1 = proofs w.
Proof.
  unfold ProofStateMachine_updateState. intros Hpoll.
  destruct (decide (channel c ∈ down w)); [done |].
  destruct (state r) eqn:Hst; try by simplify_eq.
  destruct (pending c w) as [| m rest]; [by simplify_eq |].
  destruct (verdict m). by simplify_eq.
Qed.

(** [sendProofRequest] and [proofUpdate] on the core, in full. *)
Lemma sendProofRequest_core connectionId proofId w :
  sendProofRequest core_deps connectionId proofId w =
    match connections w !! connectionId with
    | None => (Throw (NotFound ConnectionKey connectionId), w)
    | Some c =>
        match proofs w !! proofId with
        | None => (Throw (NotFound ProofKey proofId), w)
        | Some r =>
            match ProofStateMachine_requestProof r c w with
            | (Return (_, r'), w1) =>
                (Return {| ProofRequestSent.state := state r';
                           ProofRequestSent.proofRequestMessage :=
                             proofRequestMessage r' |},
                 store proofId r' w1)
            | (Throw e, w1) => (Throw e, w1)
            end
        end
    end.
Proof.
  unfold sendProofRequest. cbn.
  unfold mbind, Async_bind, ConnectionResolver_load, ProofStore_load.
  destruct (connections w !! connectionId) as [c |]; [| done].
  destruct (proofs w !! proofId) as [r |]; [| done].
  by destruct (ProofStateMachine_requestProof r c w) as [[[[] r'] | e] w1].
Qed.

Lemma proofUpdate_core proofId connectionId w :
  proofUpdate core_deps proofId connectionId w =
    match proofs w !! proofId with
    | None => (Throw (NotFound ProofKey proofId), w)
    | Some r =>
        match connections w !! connectionId with
        | None => (Throw (NotFound ConnectionKey connectionId), w)
        | Some c =>
            match ProofStateMachine_updateState r c w with
            | (Return (s, r'), w1) => (Return s, store proofId r' w1)
            | (Throw e, w1) => (Throw e, w1)
            end
        end
    end.
Proof.
  unfold proofUpdate. cbn.
  unfold mbind, Async_bind, ConnectionResolver_load, ProofStore_load.
  destruct (proofs w !! proofId) as [r |]; [| done].
  destruct (connections w !! connectionId) as [c |]; [| done].
  by destruct (ProofStateMachine_updateState r c w) as [[[s r'] | e] w1].
Qed.

(** X5.  With a proof id that is stored and a connection id that the
    resolver does not know, [proofUpdate] fails with the connection's
    [NotFound]; no poll is made and the world is unchanged. *)
Theorem proofUpdate_unknown_connection proofId connectionId r w :
  proofs w !! proofId = Some r →
  connections w !! connectionId = None →
  proofUpdate core_deps proofId connectionId w
    = (Throw (NotFound ConnectionKey connectionId), w).
Proof. intros Hr Hc. by rewrite proofUpdate_core, Hr, Hc. Qed.

(** X6.  With criteria that [Proof.create] refuses, [createProof] fails
    with that error after its log line and its pause of 1000 ms; nothing is
    saved, so the store is what it was. *)
Theorem createProof_malformed proofId data w :
  well_formed data = false →
  createProof core_deps proofId data w
    = (Throw ValidationError, journal [announcement proofId data; Slept 1000] w)
  ∧ proofs (after (createProof core_deps proofId data w)) = proofs w.
Proof. intros Hwf. by rewrite createProof_core, Hwf. Qed.

(** X7.  [createProof] followed at once by [getState] on the same id gives
    [INITIAL], whatever was stored under the id before. *)
Theorem createProof_then_getState proofId data w :
  well_formed data = true →
  outcome ((createProof core_deps proofId data ;; getState core_deps proofId) w)
    = Return INITIAL.
Proof.
  intros Hwf. unfold mbind at 1. unfold Async_bind.
  rewrite createProof_core, Hwf, getState_core. cbn.
  by rewrite lookup_insert_eq.
Qed.

(** X8.  After [createProof] on an id, [listIds] gives each stored id once:
    the new id and the ids that were stored before, and no other. *)
Theorem createProof_then_listIds proofId data w :
  well_formed data = true →
  ∃ ids,
    outcome ((createProof core_deps proofId data ;; listIds core_deps) w)
      = Return ids
    ∧ NoDup ids
    ∧ ∀ id, id ∈ ids ↔ id = proofId ∨ is_Some (proofs w !! id).
Proof.
  intros Hwf. exists (elements (dom (<[proofId := fresh data]> (proofs w)))).
  split; [| split].
  - unfold mbind at 1. unfold Async_bind. by rewrite createProof_core, Hwf.
  - apply NoDup_elements.
  - intros id. rewrite elem_of_elements, elem_of_dom, lookup_insert_is_Some.
    split.
    + intros [-> | [_ Hid]]; auto.
    + intros [-> | Hid]; [auto |].
      destruct (decide (proofId = id)); auto.
Qed.

(** X9.  The operations that save do so under their own proof id only: a
    record stored under another id is the same after [createProof],
    [sendProofRequest] and [proofUpdate], whether they succeed or fail. *)
Theorem saves_touch_one_id proofId other connectionId data w :
  other ≠ proofId →
  proofs (after (createProof core_deps proofId data w)) !! other
    = proofs w !! other
  ∧ proofs (after (sendProofRequest core_deps connectionId proofId w)) !! other
      = proofs w !! other
  ∧ proofs (after (proofUpdate core_deps proofId connectionId w)) !! other
      = proofs w !! other.
Proof.
  intros Hne. split; [| split].
  - rewrite createProof_core. destruct (well_formed data); cbn; [| done].
    by rewrite lookup_insert_ne.
  - rewrite sendProofRequest_core.
    destruct (connections w !! connectionId) as [c |]; [| done].
    destruct (proofs w !! proofId) as [r |]; [| done].
    destruct (ProofStateMachine_requestProof r c w) as [[[[] r'] | e] w1] eqn:Hreq.
    + apply requestProof_stores in Hreq as [Hp _]. cbn.
      by rewrite lookup_insert_ne, Hp.
    + by apply requestProof_Throw in Hreq as ->.
  - rewrite proofUpdate_core.
    destruct (proofs w !! proofId) as [r |]; [| done].
    destruct (connections w !! connectionId) as [c |]; [| done].
    destruct (ProofStateMachine_updateState r c w) as [[[s r'] | e] w1] eqn:Hpoll.
    + apply updateState_Return in Hpoll as [_ Hp]. cbn.
      by rewrite lookup_insert_ne, Hp.
    + by apply updateState_Throw in Hpoll as ->.
Qed.

(** X10.  [printInfo] only logs: for every batch, known ids or not, the
    world after the call is the world before it with some lines at level
    info added to the journal; the proof store, the connections and the
    queued messages are untouched. *)
Theorem printInfo_only_logs ids w :
  ∃ lines, after (printInfo core_deps ids w) = journal (Logged Info <$> lines) w.
Proof.
  revert w. induction ids as [| id ids IH]; intros w.
  - exists []. rewrite printInfo_nil. symmetry. apply journal_nil.
  - destruct (proofs w !! id) as [r |] eqn:Hr.
    + rewrite (printInfo_cons_logs core_deps id ids w (state r) w
                 (emit (diagnostic id r) w)).
      * destruct (IH (emit (diagnostic id r) w)) as [lines ->].
        exists (("Proof " +:+ id +:+ " state=" +:+ State_name (state r)) :: lines).
        unfold emit. by rewrite journal_journal.
      * by rewrite getState_core, Hr.
      * done.
    + exists []. rewrite (printInfo_cons_rejects core_deps id ids w
                            (NotFound ProofKey id) w).
      * symmetry. apply journal_nil.
      * by rewrite getState_core, Hr.
Qed.

(** X11.  What [sendProofRequest] returns is what it has stored: after a
    successful call the record under the proof id has the returned state and
    the returned message, and [getState] gives the returned state. *)
Theorem sendProofRequest_then_getState connectionId proofId w sent w' :
  sendProofRequest core_deps connectionId proofId w = (Return sent, w') →
  getState core_deps proofId w' = (Return (ProofRequestSent.state sent), w')
  ∧ (proofRequestMessage <$> proofs w' !! proofId)
      = Some (ProofRequestSent.proofRequestMessage sent).
Proof.
  rewrite sendProofRequest_core. intros Hsent.
  destruct (connections w !! connectionId) as [c |]; [| done].
  destruct (proofs w !! proofId) as [r |]; [| done].
  destruct (ProofStateMachine_requestProof r c w) as [[[[] r'] | e] w1]; [| done].
  simplify_eq. rewrite getState_core. cbn. by rewrite lookup_insert_eq.
Qed.

(** X12.  What [proofUpdate] returns is what it has stored: after a
    successful call [getState] on the proof id gives the returned state. *)
Theorem proofUpdate_then_getState proofId connectionId w s w' :
  proofUpdate core_deps proofId connectionId w = (Return s, w') →
  getState core_deps proofId w' = (Return s, w').
Proof.
  rewrite proofUpdate_core. intros Hupd.
  destruct (proofs w !! proofId) as [r |]; [| done].
  destruct (connections w !! connectionId) as [c |]; [| done].
  destruct (ProofStateMachine_updateState r c w) as [[[s1 r'] | e] w1] eqn:Hpoll;
    [| done].
  apply updateState_Return in Hpoll as [Hst _]. simplify_eq.
  rewrite getState_core. cbn. by rewrite lookup_insert_eq.
Qed.

(** X13.  From any world, [createProof] followed by [sendProofRequest] over
    a known connection whose transport works returns [REQUEST_SENT] and the
    message generated from the criteria, and the record stored under the id
    is the new record after its request went out. *)
Theorem createProof_then_sendProofRequest proofId connectionId data c w :
  well_formed data = true →
  connections w !! connectionId = Some c →
  channel c ∉ down w →
  outcome ((createProof core_deps proofId data ;;
            sendProofRequest core_deps connectionId proofId) w)
    = Return {| ProofRequestSent.state := REQUEST_SENT;
                ProofRequestSent.proofRequestMessage := request_message data |}
  ∧ proofs (after ((createProof core_deps proofId data ;;
                    sendProofRequest core_deps connectionId proofId) w)) !! proofId
      = Some (requested (fresh data) c).
Proof.
  intros Hwf Hc Hup. unfold mbind at 1 2. unfold Async_bind.
  rewrite createProof_core, Hwf, sendProofRequest_core. cbn.
  rewrite Hc, lookup_insert_eq. unfold ProofStateMachine_requestProof. cbn.
  rewrite decide_False by done. cbn. by rewrite lookup_insert_eq.
Qed.

End CoreSteps.

(** ** The interactive client, turn by turn *)

Lemma truthy_nonempty (s : string) : s ≠ "" → Client.truthy s = true.
Proof.
  intros Hs. unfold Client.truthy. apply negb_true_iff.
  by apply String.eqb_neq.
Qed.

Lemma strict_eq_other (cmd key : string) :
  cmd ∉ Client.commands.*1 → key ∈ Client.commands.*1 →
  Client.strict_eq cmd key = false.
Proof.
  intros Hnot Hkey. unfold Client.strict_eq. apply String.eqb_neq.
  by intros ->.
Qed.

(** Walk down the chain of comparisons with an answer that is no key. *)
Ltac skip_keys cmd Hnot :=
  repeat match goal with
         | |- context [Client.strict_eq cmd ?key] =>
             rewrite (strict_eq_other cmd key Hnot) by (cbn; set_solver)
         end.

(** Nothing at level error among lines whose levels are known. *)
Ltac no_error_line :=
  let Hin := fresh "Hin" in
  intros Hin;
  repeat (apply elem_of_cons in Hin as [Hin | Hin]; [discriminate Hin |]);
  by apply elem_of_nil in Hin.

Section ClientSteps.
Context {W : Type} `{Client.Lib W}.
Context (logger : Client.Logger W) (ariesAgent : Client.AriesAgent W).

(** X14.  An answer that is not empty and is not a key of [commands] is an
    unknown command: the turn is the question followed by the one line
    [Unknown command ...] at level error, and no method of the agent runs. *)
Theorem turn_unknown_command cmd w w1 :
  Client.question Client.select_action w = (Return cmd, w1) →
  cmd ≠ "" →
  cmd ∉ Client.commands.*1 →
  Client.turn logger ariesAgent w
    = Client.error logger ("Unknown command " +:+ cmd) w1.
Proof.
  intros Hq Hne Hnot. unfold Client.turn.
  rewrite (bind_Return _ _ w cmd w1) by done.
  rewrite truthy_nonempty by done.
  skip_keys cmd Hnot. done.
Qed.

(** X15.  On the empty answer the turn does nothing: after the question
    nothing is logged, not even an unknown command, and no method of the
    agent runs. *)
Theorem turn_empty_answer w w1 :
  Client.question Client.select_action w = (Return "", w1) →
  Client.turn logger ariesAgent w = (Return (), w1).
Proof.
  intros Hq. unfold Client.turn.
  by rewrite (bind_Return _ _ w "" w1).
Qed.

(** X16.  A key of [commands] is never an unknown command: on such an
    answer the turn does not call [logger.error], so it runs the same
    whatever [logger.error] is. *)
Theorem turn_menu_command_known f cmd w w1 :
  Client.question Client.select_action w = (Return cmd, w1) →
  cmd ∈ Client.commands.*1 →
  Client.turn (Client.with_error f logger) ariesAgent w
    = Client.turn logger ariesAgent w.
Proof.
  intros Hq Hkey. unfold Client.turn.
  rewrite !(bind_Return _ _ w cmd w1) by done.
  cbn in Hkey. rewrite !elem_of_cons, elem_of_nil in Hkey.
  repeat destruct Hkey as [-> | Hkey]; done.
Qed.

End ClientSteps.

(** X17.  At the desk, the commands that the menu shows are the commands
    that the loop takes: for an answer that is not empty, whatever is typed
    after it, the turn prints no line at level error exactly when the answer
    is a key of [commands]. *)
Theorem turn_takes_menu_commands cmd rest :
  cmd ≠ "" →
  cmd ∈ Client.commands.*1
  ↔ "error" ∉ (Client.printed
                 (after (Client.turn Client.desk_logger Client.desk_agent
                           (Client.desk (cmd :: rest))))).*1.
Proof.
  intros Hne. split.
  - intros Hkey. cbn in Hkey. rewrite !elem_of_cons, elem_of_nil in Hkey.
    repeat destruct Hkey as [-> | Hkey]; try done;
      destruct rest as [| a [| b rest]]; vm_compute; no_error_line.
  - intros Hclean. destruct (decide (cmd ∈ Client.commands.*1)) as [| Hnot]; [done |].
    exfalso. apply Hclean. unfold Client.turn.
    rewrite (bind_Return _ _ _ cmd (Client.desk rest)) by done.
    rewrite truthy_nonempty by done.
    skip_keys cmd Hnot. cbn. apply list_elem_of_here.
Qed.

(** ** The further theorems at concrete inputs *)

Lemma proofUpdate_proof_first_witness :
  proofs world2 !! "p9" = None
  ∧ connections world2 !! "conn9" = None
  ∧ proofUpdate core_deps "p9" "conn9" world2
      = (Throw (NotFound ProofKey "p9"), world2).
Proof.
  split; [reflexivity |]. split; [reflexivity |].
  apply (proofUpdate_proof_first core_deps "p9" "conn9" world2). reflexivity.
Defined.

Lemma sendProofRequest_failed_request_not_saved_witness :
  sendProofRequest core_deps "conn1" "p2" world2_down
    = (Throw TransportError, world2_down).
Proof.
  apply (sendProofRequest_failed_request_not_saved core_deps "conn1" "p2"
           conn1 new1 world2_down world2_down world2_down); reflexivity.
Defined.

Lemma proofUpdate_failed_poll_not_saved_witness :
  proofUpdate core_deps "p1" "conn1" world2_down
    = (Throw TransportError, world2_down).
Proof.
  apply (proofUpdate_failed_poll_not_saved core_deps "p1" "conn1"
           conn1 sent1 world2_down world2_down world2_down); reflexivity.
Defined.

Lemma proofUpdate_unknown_connection_witness :
  proofUpdate core_deps "p1" "conn9" world2
    = (Throw (NotFound ConnectionKey "conn9"), world2).
Proof.
  apply (proofUpdate_unknown_connection (criteria := attrs_criteria)
           "p1" "conn9" sent1 world2); reflexivity.
Defined.

Lemma createProof_malformed_witness :
  createProof core_deps "p3" ([] : Payload) world2
    = (Throw ValidationError,
       journal [announcement "p3" ([] : Payload); Slept 1000] world2)
  ∧ proofs (after (createProof core_deps "p3" ([] : Payload) world2))
      = proofs world2.
Proof.
  apply (createProof_malformed (criteria := attrs_criteria) "p3" [] world2).
  reflexivity.
Defined.

Lemma createProof_then_getState_witness :
  (state <$> proofs world1 !! "p1") = Some REQUEST_SENT
  ∧ outcome ((createProof core_deps "p1" attrs1 ;; getState core_deps "p1") world1)
      = Return INITIAL.
Proof.
  split; [reflexivity |].
  apply (createProof_then_getState (criteria := attrs_criteria)
           "p1" attrs1 world1). reflexivity.
Defined.

Lemma createProof_then_listIds_witness :
  ∃ ids,
    outcome ((createProof core_deps "p3" attrs1 ;; listIds core_deps) world2)
      = Return ids
    ∧ NoDup ids
    ∧ ∀ id, id ∈ ids ↔ id = "p3" ∨ is_Some (proofs world2 !! id).
Proof.
  apply (createProof_then_listIds (criteria := attrs_criteria)
           "p3" attrs1 world2). reflexivity.
Defined.

Lemma saves_touch_one_id_witness :
  proofs (after (createProof core_deps "p2" attrs1 world2)) !! "p1"
    = proofs world2 !! "p1"
  ∧ proofs (after (sendProofRequest core_deps "conn1" "p2" world2)) !! "p1"
      = proofs world2 !! "p1"
  ∧ proofs (after (proofUpdate core_deps "p2" "conn1" world2)) !! "p1"
      = proofs world2 !! "p1".
Proof.
  apply (saves_touch_one_id (criteria := attrs_criteria)
           "p2" "p1" "conn1" attrs1 world2). discriminate.
Defined.

Lemma sendProofRequest_then_getState_witness :
  getState core_deps "p2" (after (sendProofRequest core_deps "conn1" "p2" world2))
    = (Return REQUEST_SENT, after (sendProofRequest core_deps "conn1" "p2" world2))
  ∧ (proofRequestMessage
       <$> proofs (after (sendProofRequest core_deps "conn1" "p2" world2)) !! "p2")
      = Some ("proof-request " +:+ attrs_json attrs1).
Proof.
  apply (sendProofRequest_then_getState (criteria := attrs_criteria)
           "conn1" "p2" world2
           {| ProofRequestSent.state := REQUEST_SENT;
              ProofRequestSent.proofRequestMessage :=
                "proof-request " +:+ attrs_json attrs1 |}).
  reflexivity.
Defined.

Lemma proofUpdate_then_getState_witness :
  getState core_deps "p1"
      (after (proofUpdate core_deps "p1" "conn1" (deliver conn1 Declined world1)))
    = (Return REJECTED,
       after (proofUpdate core_deps "p1" "conn1" (deliver conn1 Declined world1))).
Proof.
  apply (proofUpdate_then_getState (criteria := attrs_criteria)
           "p1" "conn1" (deliver conn1 Declined world1)).
  reflexivity.
Defined.

Lemma createProof_then_sendProofRequest_witness :
  outcome ((createProof core_deps "p1" attrs1 ;;
            sendProofRequest core_deps "conn1" "p1") world1)
    = Return {| ProofRequestSent.state := REQUEST_SENT;
                ProofRequestSent.proofRequestMessage := request_message attrs1 |}
  ∧ proofs (after ((createProof core_deps "p1" attrs1 ;;
                    sendProofRequest core_deps "conn1" "p1") world1)) !! "p1"
      = Some (requested new1 conn1).
Proof.
  apply (createProof_then_sendProofRequest (criteria := attrs_criteria)
           "p1" "conn1" attrs1 conn1 world1); try reflexivity.
  vm_compute. set_solver.
Defined.

Lemma printInfo_all_known_witness :
  printInfo core_deps ["p2"; "p1"; "p2"] world2
    = (Return (),
       journal [diagnostic "p2" new1; diagnostic "p1" sent1; diagnostic "p2" new1]
         world2).
Proof.
  apply (printInfo_all_known (criteria := attrs_criteria) ["p2"; "p1"; "p2"] world2).
  repeat (apply Forall_cons_2; [by eexists |]). apply Forall_nil_2.
Defined.

Lemma sendProofRequest_unknown_proof_witness :
  sendProofRequest core_deps "conn1" "p9" world2
    = (Throw (NotFound ProofKey "p9"), world2).
Proof.
  apply (sendProofRequest_unknown_proof (criteria := attrs_criteria)
           "conn1" "p9" conn1 world2); reflexivity.
Defined.

Lemma turn_unknown_command_witness :
  Client.turn Client.desk_logger Client.desk_agent (Client.desk ["99"; "14"])
    = Client.error Client.desk_logger "Unknown command 99" (Client.desk ["14"]).
Proof.
  apply (turn_unknown_command Client.desk_logger Client.desk_agent "99"
           (Client.desk ["99"; "14"]) (Client.desk ["14"])).
  - reflexivity.
  - discriminate.
  - cbn. no_error_line.
Defined.

Lemma turn_empty_answer_witness :
  Client.turn Client.desk_logger Client.desk_agent (Client.desk [""; "14"])
    = (Return (), Client.desk ["14"]).
Proof.
  apply (turn_empty_answer Client.desk_logger Client.desk_agent
           (Client.desk [""; "14"]) (Client.desk ["14"])).
  reflexivity.
Defined.

Lemma turn_menu_command_known_witness :
  Client.turn (Client.with_error (λ _, Client.note "error") Client.desk_logger)
      Client.desk_agent (Client.desk ["31"; "conn1"])
    = Client.turn Client.desk_logger Client.desk_agent (Client.desk ["31"; "conn1"]).
Proof.
  apply (turn_menu_command_known Client.desk_logger Client.desk_agent
           (λ _, Client.note "error") "31"
           (Client.desk ["31"; "conn1"]) (Client.desk ["conn1"])).
  - reflexivity.
  - cbn. do 10 apply list_elem_of_further. apply list_elem_of_here.
Defined.

Lemma turn_takes_menu_commands_witness :
  "2" ∈ Client.commands.*1
  ↔ "error" ∉ (Client.printed
                 (after (Client.turn Client.desk_logger Client.desk_agent
                           (Client.desk ["2"; "schema1"; "name1"])))).*1.
Proof.
  apply (turn_takes_menu_commands "2" ["schema1"; "name1"]). discriminate.
Defined.
